(** * seelf: deploy job handler and the sqlite apps store

    A shallow embedding of

    - [internal/worker/infra/jobs/deploy/handler.go]: the job handler that
      turns a [DeploymentCreated] event into a deduplicated job and later
      runs the deploy command;
    - the sqlite apps store ([package sqlite], [appsStore]): the naming
      availability queries, [GetByID] and the event-to-SQL projection of
      [Write].

    Go values are modelled as follows.  Named string types ([AppID],
    [AppName], [TargetID]) are [string]; [int] is [Z]; [monad.Maybe] is
    [option]; a Go [error] result is [option error] (with [None] for [nil]);
    [builder.Values], a [map[string]any], is a [gmap string Value]; a table is
    the list of its rows in insertion order and a row maps column names to
    SQL values.  A [context.Context] is only handed on to the engine and to
    the deploy command; what it may cause there (a cancellation) is part of
    their answer. *)

From Stdlib Require Import ZArith.
From stdpp Require Import base tactics option list strings gmap.

Open Scope Z_scope.
Open Scope string_scope.
Open Scope list_scope.

(** ** Errors *)

(** The Go [error] values that flow through the two files.  [DomainError]
    stands for a rejection reported by a domain command, [InfraError] for an
    error raised by the sql driver or the transport. *)
Inductive error : Type :=
  | ErrInvalidPayload
  | ErrNoRows
  | DomainError (msg : string)
  | InfraError (msg : string).

#[global] Instance error_eq_dec : EqDecision error.
Proof. solve_decision. Defined.

(** ** The deployment domain, as far as the two files read it *)

Definition AppID := string.
Definition AppName := string.
Definition TargetID := string.
Definition UserID := string.
Definition DeploymentNumber := Z.
Definition Time := Z.

Record DeploymentID : Type := {
  AppID_of : AppID;
  DeploymentNumber_of : DeploymentNumber
}.

(** Modelled from the spec: [domain.Environment] is declared in the domain
    package, outside the sources; the spec describes it as the closed,
    code-defined enumeration {production, staging}. *)
Inductive Environment : Type := Production | Staging.

(** The conversion [string(env)]. *)
Definition Environment_string (env : Environment) : string :=
  match env with
  | Production => "production"
  | Staging => "staging"
  end.

(** The deployment [Config] carried by [DeploymentCreated]; only
    [ProjectName()] is read by the handler. *)
Record DeploymentConfig : Type := {
  ProjectName : string;
  ConfigEnvironment : Environment
}.

Record DeploymentCreated : Type := {
  ID : DeploymentID;
  Config : DeploymentConfig
}.

(** ** Deploy handler: [internal/worker/infra/jobs/deploy/handler.go] *)

Module Deploy.

(** [type Request depldomain.DeploymentCreated] *)
Definition Request := DeploymentCreated.

(** The handler's job payload, [Data{AppID, DeploymentNumber}]. *)
Record Data : Type := {
  DataAppID : AppID;
  DataDeploymentNumber : DeploymentNumber
}.

(** A producer payload of static type [any]: either this handler's
    [Request] or a value of some other dynamic type. *)
Inductive Payload : Type :=
  | PayloadRequest (evt : Request)
  | PayloadOther (type_name : string).

(** [domain.JobData]: either this handler's [Data] or the data of another
    handler. *)
Inductive JobData : Type :=
  | JobDeployData (data : Data)
  | JobOtherData (discriminator : string).

Record Job : Type := {
  JobID : string;
  JobData_of : JobData
}.

(** [deplcmd.DeployCommand] *)
Record DeployCommand : Type := {
  CmdAppID : string;
  CmdDeploymentNumber : Z
}.

(** What a call leaves behind in the outside world, in program order. *)
Inductive Effect : Type :=
  | DeployInvoked (cmd : DeployCommand)
  | ErrorLogged (msg : string) (err : error) (appid : AppID)
      (deployment : DeploymentNumber).

(** The [handler] struct.  The logger is the sink of [ErrorLogged]
    effects; [deploy] is the injected command, given here by its answer to
    each command (its invocation is recorded as a [DeployInvoked]
    effect). *)
Record handler : Type := {
  deploy : DeployCommand -> option error
}.

Definition New (deploy : DeployCommand -> option error) : handler :=
  {| deploy := deploy |}.

Definition CanPrepare (payload : Payload) : bool :=
  match payload with PayloadRequest _ => true | PayloadOther _ => false end.

Definition CanProcess (data : JobData) : bool :=
  match data with JobDeployData _ => true | JobOtherData _ => false end.

Section Handler.

(** Modelled from the spec: [Data.Discriminator()] is declared next to the
    [Data] type, outside the sources.  The glossary defines a discriminator
    as a stable tag identifying a job kind, so it is one string for all the
    jobs of this handler, taken here as a parameter. *)
Variable Discriminator : string.

(** [fmt.Sprintf("%s.%s", a, b)] *)
Definition Sprintf_s_dot_s (a b : string) : string := a +:+ "." +:+ b.

(** [handler.Prepare]: the job data, the dedupe name and the error. *)
Definition Prepare (payload : Payload)
  : option Data * option string * option error :=
  match payload with
  | PayloadOther _ => (None, None, Some ErrInvalidPayload)
  | PayloadRequest evt =>
      let data := {| DataAppID := AppID_of (ID evt);
                     DataDeploymentNumber := DeploymentNumber_of (ID evt) |} in
      let dedupeName :=
        Some (Sprintf_s_dot_s Discriminator (ProjectName (Config evt))) in
      (Some data, dedupeName, None)
  end.

End Handler.

(** [handler.Process]: the returned error and the effects performed. *)
Definition Process (h : handler) (job : Job) : option error * list Effect :=
  match JobData_of job with
  | JobOtherData _ => (Some ErrInvalidPayload, [])
  | JobDeployData data =>
      let cmd := {| CmdAppID := DataAppID data;
                    CmdDeploymentNumber := DataDeploymentNumber data |} in
      match deploy h cmd with
      | Some err =>
          (None,
           [DeployInvoked cmd;
            ErrorLogged "deploy job has failed" err (DataAppID data)
              (DataDeploymentNumber data)])
      | None => (None, [DeployInvoked cmd])
      end
  end.

(** The dedupe key of a [Prepare] result. *)
Definition dedupe_key (r : option Data * option string * option error)
  : option string := snd (fst r).

End Deploy.

(** ** SQL values, rows and tables *)

(** A value stored in a column or bound to a [?] placeholder. *)
Inductive Value : Type :=
  | VNull
  | VInt (n : Z)
  | VText (s : string)
  | VTime (t : Time).

#[global] Instance Value_eq_dec : EqDecision Value.
Proof. solve_decision. Defined.

(** A row maps column names to values; a column that is absent reads as
    [NULL]. *)
Abbreviation Row := (gmap string Value).

Definition col (r : Row) (c : string) : Value := default VNull (r !! c).

(** The two tables the store reads; only [apps] is written by it. *)
Record Database : Type := {
  apps : list Row;
  targets : list Row
}.

(** SQL comparisons as used in a [WHERE] clause: a row is kept when the
    condition is true, and a comparison with [NULL] is not true. *)
Definition sql_eq (a b : Value) : bool :=
  match a, b with
  | VNull, _ | _, VNull => false
  | _, _ => bool_decide (a = b)
  end.

Definition sql_ne (a b : Value) : bool :=
  match a, b with
  | VNull, _ | _, VNull => false
  | _, _ => negb (bool_decide (a = b))
  end.

Definition is_null (v : Value) : bool :=
  match v with VNull => true | _ => false end.

(** The integer SQLite yields for a boolean expression. *)
Definition sql_bool (b : bool) : Value := VInt (if b then 1 else 0).

(** The columns of [apps], in the order [GetByID] selects them. *)
Definition apps_columns : list string :=
  [ "id"; "name"; "version_control_url"; "version_control_token";
    "production_target"; "production_version"; "production_vars";
    "staging_target"; "staging_version"; "staging_vars";
    "cleanup_requested_at"; "cleanup_requested_by";
    "created_at"; "created_by" ].

(** ** SQL statements issued by the store *)

Inductive Stmt : Type :=
  (** the four-column query of [CheckAppNamingAvailability], bound to
      [name, production, production, name, staging, staging] *)
  | SelectNaming (name production_target staging_target : Value)
  (** the query assembled by [CheckAppNamingAvailabilityByID]; a slot that
      is [None] contributes the constant columns [0 AS .., 0 AS ..] *)
  | SelectNamingByID (production_target staging_target : option Value)
      (id : Value)
  (** [SELECT id, name, ... FROM apps WHERE id = ?] *)
  | SelectAppByID (id : Value)
  (** [builder.Insert("apps", values)] *)
  | InsertApps (values : Row)
  (** [builder.Update("apps", values).F("WHERE id = ?", id)] *)
  | UpdateApps (values : Row) (id : Value)
  (** [DELETE FROM apps WHERE id = ?] *)
  | DeleteApps (id : Value).

(** [EXISTS(SELECT 1 FROM apps WHERE name = ? AND <column> = ?)] *)
Definition exists_app_named (column : string) (name target : Value)
    (db : Database) : bool :=
  existsb (fun a => sql_eq (col a "name") name && sql_eq (col a column) target)
    (apps db).

(** [EXISTS(SELECT 1 FROM apps WHERE apps.id != src.id
                              AND apps.name = src.name AND <column> = ?)] *)
Definition exists_other_app_named (column : string) (src : Row)
    (target : Value) (db : Database) : bool :=
  existsb (fun a => sql_ne (col a "id") (col src "id")
                    && sql_eq (col a "name") (col src "name")
                    && sql_eq (col a column) target)
    (apps db).

(** [EXISTS(SELECT 1 FROM targets WHERE id = ? AND cleanup_requested_at IS NULL)] *)
Definition exists_live_target (target : Value) (db : Database) : bool :=
  existsb (fun t => sql_eq (col t "id") target
                    && is_null (col t "cleanup_requested_at"))
    (targets db).

(** The two result columns of one slot in the by-id query. *)
Definition by_id_slot (column : string) (src : Row) (target : option Value)
    (db : Database) : list Value :=
  match target with
  | Some t => [ sql_bool (negb (exists_other_app_named column src t db));
                sql_bool (exists_live_target t db) ]
  | None => [ VInt 0; VInt 0 ]
  end.

(** Result rows of a statement (none for a command). *)
Definition select (q : Stmt) (db : Database) : list (list Value) :=
  match q with
  | SelectNaming name production staging =>
      [ [ sql_bool (negb (exists_app_named "production_target" name production db));
          sql_bool (exists_live_target production db);
          sql_bool (negb (exists_app_named "staging_target" name staging db));
          sql_bool (exists_live_target staging db) ] ]
  | SelectNamingByID production staging id =>
      map (fun src => by_id_slot "production_target" src production db
                      ++ by_id_slot "staging_target" src staging db)
          (filter (fun src => sql_eq (col src "id") id = true) (apps db))
  | SelectAppByID id =>
      map (fun r => map (col r) apps_columns)
          (filter (fun r => sql_eq (col r "id") id = true) (apps db))
  | InsertApps _ | UpdateApps _ _ | DeleteApps _ => []
  end.

(** The tables after a statement (unchanged by a query).  An update
    overwrites the listed columns of every row the [WHERE] clause keeps. *)
Definition mutate (q : Stmt) (db : Database) : Database :=
  match q with
  | InsertApps values =>
      {| apps := apps db ++ [values]; targets := targets db |}
  | UpdateApps values id =>
      {| apps := map (fun r => if sql_eq (col r "id") id then values ∪ r else r)
                     (apps db);
         targets := targets db |}
  | DeleteApps id =>
      {| apps := filter (fun r => sql_eq (col r "id") id <> true) (apps db);
         targets := targets db |}
  | SelectNaming _ _ _ | SelectNamingByID _ _ _ | SelectAppByID _ => db
  end.

(** ** The app aggregate and its events *)

(** [domain.EnvironmentConfig]: the target a slot deploys to, the version
    stamp of the configuration and its optional (serialised) variables. *)
Record EnvironmentConfig : Type := {
  Target : TargetID;
  Version : Time;
  Vars : option string
}.

(** Modelled from the spec: [domain.EnvironmentConfigRequirement] and its
    constructor [NewEnvironmentConfigRequirement] are declared in the domain
    package, outside the sources; the spec describes the value as a desired
    configuration paired with two booleans, target-exists and
    name-available. *)
Record EnvironmentConfigRequirement : Type := {
  ReqConfig : EnvironmentConfig;
  ReqTargetFound : bool;
  ReqAvailable : bool
}.

Definition NewEnvironmentConfigRequirement (config : EnvironmentConfig)
    (targetFound available : bool) : EnvironmentConfigRequirement :=
  {| ReqConfig := config; ReqTargetFound := targetFound;
     ReqAvailable := available |}.

(** The Go zero value [domain.EnvironmentConfigRequirement{}]. *)
Definition zero_requirement : EnvironmentConfigRequirement :=
  {| ReqConfig := {| Target := ""; Version := 0; Vars := None |};
     ReqTargetFound := false;
     ReqAvailable := false |}.

(** [shared.Action]: who did something, and when. *)
Record Action : Type := { At : Time; By : UserID }.

Record VersionControl : Type := { Url : string; Token : option string }.

(** The events the writer can be handed.  The six app events are the arms
    of the type switch in [Write]; every other event type (a
    [DeploymentCreated], or one this store has never heard of) takes the
    [default] arm. *)
Inductive Event : Type :=
  | AppCreated (id : AppID) (name : AppName)
      (production staging : EnvironmentConfig) (created : Action)
  | AppEnvChanged (id : AppID) (environment : Environment)
      (config : EnvironmentConfig)
  | AppVersionControlConfigured (id : AppID) (config : VersionControl)
  | AppVersionControlRemoved (id : AppID)
  | AppCleanupRequested (id : AppID) (requested : Action)
  | AppDeleted (id : AppID)
  | EvDeploymentCreated (evt : DeploymentCreated)
  | EvOther (type_name : string).

(** The variants listed in the type switch of [Write]. *)
Definition listed_in_Write (e : Event) : bool :=
  match e with
  | AppCreated _ _ _ _ _ | AppEnvChanged _ _ _
  | AppVersionControlConfigured _ _ | AppVersionControlRemoved _
  | AppCleanupRequested _ _ | AppDeleted _ => true
  | EvDeploymentCreated _ | EvOther _ => false
  end.

(** [domain.App], as far as the store sees it: its identity and the events
    it has buffered, in emission order. *)
Record App : Type := {
  AppIdentity : AppID;
  PendingEvents : list Event
}.

(** How Go values are bound to placeholders and columns. *)
Definition text_opt (s : option string) : Value :=
  match s with Some s => VText s | None => VNull end.

(** ** The connection and the store monad *)

(** The [*sqlite.Database] handle: the current tables and, for
    observation, the statements sent to the engine so far. *)
Record Conn : Type := {
  tables : Database;
  issued : list Stmt
}.

Definition M (A : Type) : Type := Conn -> A * Conn.

Definition ret {A : Type} (a : A) : M A := fun c => (a, c).

Definition bind {A B : Type} (m : M A) (k : A -> M B) : M B :=
  fun c => let (a, c') := m c in k a c'.

Notation "x <- m ;;; k" := (bind m (fun x => k))
  (at level 100, m at next level, right associativity).

(** [appNamingResult] *)
Record appNamingResult : Type := {
  productionAvailable : bool;
  productionTargetFound : bool;
  stagingAvailable : bool;
  stagingTargetFound : bool
}.

(** [Scan] into a [*bool]: the driver hands over the integers 0 and 1. *)
Definition scan_bool (v : Value) : error + bool :=
  match v with
  | VInt 0 => inr false
  | VInt 1 => inr true
  | _ => inl (InfraError "sql: Scan error: converting to bool")
  end.

(** [appNameUniquenessResultMapper]: scans the four columns in order and
    stops at the first conversion error. *)
Definition appNameUniquenessResultMapper (row : list Value)
    : error + appNamingResult :=
  match row with
  | [c1; c2; c3; c4] =>
      match scan_bool c1, scan_bool c2, scan_bool c3, scan_bool c4 with
      | inr a, inr b, inr c, inr d =>
          inr {| productionAvailable := a; productionTargetFound := b;
                 stagingAvailable := c; stagingTargetFound := d |}
      | inl e, _, _, _ | _, inl e, _, _ | _, _, inl e, _ | _, _, _, inl e =>
          inl e
      end
  | _ => inl (InfraError "sql: wrong number of destination arguments in Scan")
  end.

(** ** The apps store *)

Module AppsStore.

Section Store.

(** The relational engine is an external collaborator.  Whether it
    refuses a statement on the current tables (a constraint of the
    schema, a closed connection, a cancelled context), and with which
    error, is left open. *)
Variable fault : Database -> Stmt -> option error.

(** The subscribers events are dispatched to after a commit. *)
Variable dispatch : list Event -> option error.

(** [domain.AppFrom], the row mapper of the aggregate; declared outside
    the sources. *)
Variable AppFrom : list Value -> error + App.

(** The connection after [q] was sent and left the tables alone. *)
Definition sent (q : Stmt) (c : Conn) : Conn :=
  {| tables := tables c; issued := issued c ++ [q] |}.

(** Modelled from the spec: [builder.Query(..).One(db, ctx, mapper)] is
    declared outside the sources.  It runs the query and maps the first
    result row; with no row the lookup fails with not-found. *)
Definition One {A : Type} (q : Stmt) (mapper : list Value -> error + A)
    : M (error + A) :=
  fun c =>
    match fault (tables c) q with
    | Some err => (inl err, sent q c)
    | None =>
        match select q (tables c) with
        | [] => (inl ErrNoRows, sent q c)
        | row :: _ => (mapper row, sent q c)
        end
    end.

(** Modelled from the spec: [Exec(db, ctx)] of a builder statement is
    declared outside the sources.  It applies the mutation, or returns
    the engine's error and leaves the tables alone. *)
Definition Exec (q : Stmt) : M (option error) :=
  fun c =>
    match fault (tables c) q with
    | Some err => (Some err, sent q c)
    | None => (None, {| tables := mutate q (tables c);
                        issued := issued c ++ [q] |})
    end.

(** [appsStore.CheckAppNamingAvailability] *)
Definition CheckAppNamingAvailability (name : AppName)
    (production staging : EnvironmentConfig)
    : M (EnvironmentConfigRequirement * EnvironmentConfigRequirement
         * option error) :=
  r <- One (SelectNaming (VText name) (VText (Target production))
              (VText (Target staging)))
           appNameUniquenessResultMapper ;;;
  match r with
  | inl err => ret (zero_requirement, zero_requirement, Some err)
  | inr r =>
      ret (NewEnvironmentConfigRequirement production
             (productionTargetFound r) (productionAvailable r),
           NewEnvironmentConfigRequirement staging
             (stagingTargetFound r) (stagingAvailable r),
           None)
  end.

(** The statement assembled by [CheckAppNamingAvailabilityByID] when at
    least one slot is present: each present slot appends its two
    sub-queries and binds its target twice, an absent slot appends two
    constant columns, and the id is bound last. *)
Definition naming_by_id_query (id : AppID)
    (production staging : option EnvironmentConfig) : Stmt :=
  SelectNamingByID
    (match production with
     | Some productionValue => Some (VText (Target productionValue))
     | None => None
     end)
    (match staging with
     | Some stagingValue => Some (VText (Target stagingValue))
     | None => None
     end)
    (VText id).

(** [appsStore.CheckAppNamingAvailabilityByID] *)
Definition CheckAppNamingAvailabilityByID (id : AppID)
    (production staging : option EnvironmentConfig)
    : M (EnvironmentConfigRequirement * EnvironmentConfigRequirement
         * option error) :=
  let productionRequirement := zero_requirement in
  let stagingRequirement := zero_requirement in
  match production, staging with
  | None, None => ret (productionRequirement, stagingRequirement, None)
  | _, _ =>
      r <- One (naming_by_id_query id production staging)
               appNameUniquenessResultMapper ;;;
      match r with
      | inl err => ret (productionRequirement, stagingRequirement, Some err)
      | inr r =>
          let productionRequirement :=
            match production with
            | Some productionValue =>
                NewEnvironmentConfigRequirement productionValue
                  (productionTargetFound r) (productionAvailable r)
            | None => productionRequirement
            end in
          let stagingRequirement :=
            match staging with
            | Some stagingValue =>
                NewEnvironmentConfigRequirement stagingValue
                  (stagingTargetFound r) (stagingAvailable r)
            | None => stagingRequirement
            end in
          ret (productionRequirement, stagingRequirement, None)
      end
  end.

(** [appsStore.GetByID] *)
Definition GetByID (id : AppID) : M (error + App) :=
  One (SelectAppByID (VText id)) AppFrom.

(** The statement [Write] selects for an event: one arm per listed
    variant, [None] for the [default] arm. *)
Definition statement_of (e : Event) : option Stmt :=
  match e with
  | AppCreated id name production staging created =>
      Some (InsertApps
        (<["id" := VText id]>
        (<["name" := VText name]>
        (<["production_target" := VText (Target production)]>
        (<["production_version" := VTime (Version production)]>
        (<["production_vars" := text_opt (Vars production)]>
        (<["staging_target" := VText (Target staging)]>
        (<["staging_version" := VTime (Version staging)]>
        (<["staging_vars" := text_opt (Vars staging)]>
        (<["created_at" := VTime (At created)]>
        (<["created_by" := VText (By created)]> ∅)))))))))))
  | AppEnvChanged id environment config =>
      Some (UpdateApps
        (<[Environment_string environment +:+ "_target" := VText (Target config)]>
        (<[Environment_string environment +:+ "_version" := VTime (Version config)]>
        (<[Environment_string environment +:+ "_vars" := text_opt (Vars config)]> ∅)))
        (VText id))
  | AppVersionControlConfigured id config =>
      Some (UpdateApps
        (<["version_control_url" := VText (Url config)]>
        (<["version_control_token" := text_opt (Token config)]> ∅))
        (VText id))
  | AppVersionControlRemoved id =>
      Some (UpdateApps
        (<["version_control_url" := VNull]>
        (<["version_control_token" := VNull]> ∅))
        (VText id))
  | AppCleanupRequested id requested =>
      Some (UpdateApps
        (<["cleanup_requested_at" := VTime (At requested)]>
        (<["cleanup_requested_by" := VText (By requested)]> ∅))
        (VText id))
  | AppDeleted id => Some (DeleteApps (VText id))
  | EvDeploymentCreated _ | EvOther _ => None
  end.

(** The closure [Write] hands to [WriteAndDispatch]: the type switch
    over the event. *)
Definition write_event (e : Event) : M (option error) :=
  match statement_of e with
  | Some q => Exec q
  | None => ret None
  end.

(** The events of a batch go through the callback in order, until one
    fails. *)
Fixpoint apply_events (apply : Event -> M (option error))
    (events : list Event) : M (option error) :=
  match events with
  | [] => ret None
  | e :: rest =>
      err <- apply e ;;;
      match err with
      | Some err => ret (Some err)
      | None => apply_events apply rest
      end
  end.

(** Modelled from the spec: [sqlite.WriteAndDispatch] is declared outside
    the sources.  It reads the pending events of each aggregate in
    emission order, applies their mutations in one transaction, aborts
    the whole transaction when a mutation fails, and after the commit
    dispatches the events. *)
Definition WriteAndDispatch (aggregates : list App)
    (apply : Event -> M (option error)) : M (option error) :=
  fun c =>
    let events := concat (map PendingEvents aggregates) in
    match apply_events apply events c with
    | (Some err, c') =>
        (Some err, {| tables := tables c; issued := issued c' |})
    | (None, c') => (dispatch events, c')
    end.

(** [appsStore.Write] *)
Definition Write (aggregates : list App) : M (option error) :=
  WriteAndDispatch aggregates write_event.

End Store.

End AppsStore.

(** ** Vocabulary of the statements below *)

(** The three components of a naming check's result. *)
Definition production_of {A B C : Type} (r : A * B * C) : A := fst (fst r).
Definition staging_of {A B C : Type} (r : A * B * C) : B := snd (fst r).
Definition error_of {A B C : Type} (r : A * B * C) : C := snd r.

(** The app [id] has a row in [apps]. *)
Definition stored (id : AppID) (db : Database) : bool :=
  existsb (fun r => sql_eq (col r "id") (VText id)) (apps db).


(** The target [t] has a row in [targets], and every row it has carries a
    cleanup request. *)
Definition cleanup_pending (t : TargetID) (db : Database) : bool :=
  existsb (fun r => sql_eq (col r "id") (VText t)) (targets db)
  && forallb (fun r => implb (sql_eq (col r "id") (VText t))
                             (negb (is_null (col r "cleanup_requested_at"))))
       (targets db).

(** The row of [apps] the by-id query reads its name and id from. *)
Definition source_row (id : AppID) (db : Database) : option Row :=
  head (filter (fun src => sql_eq (col src "id") (VText id) = true) (apps db)).

(** One slot of the by-id result. *)
Definition by_id_requirement (column : string) (src : Row)
    (config : option EnvironmentConfig) (db : Database)
    : EnvironmentConfigRequirement :=
  match config with
  | Some value =>
      NewEnvironmentConfigRequirement value
        (exists_live_target (VText (Target value)) db)
        (negb (exists_other_app_named column src (VText (Target value)) db))
  | None => zero_requirement
  end.

(** The three columns of an environment slot. *)
Definition slot_columns (env : Environment) : list string :=
  [ Environment_string env +:+ "_target";
    Environment_string env +:+ "_version";
    Environment_string env +:+ "_vars" ].

(** How an [AppEnvChanged] event for app [id] relates a row before the
    write ([r]) to the row after it ([r']): a row of the app holds the new
    configuration in the three columns of the slot and is unchanged in every
    other column; a row of another app is unchanged. *)
Definition env_changed_row (id : AppID) (environment : Environment)
    (config : EnvironmentConfig) (r r' : Row) : Prop :=
  (col r "id" = VText id ->
     col r' (Environment_string environment +:+ "_target")
       = VText (Target config)
     /\ col r' (Environment_string environment +:+ "_version")
       = VTime (Version config)
     /\ col r' (Environment_string environment +:+ "_vars")
       = text_opt (Vars config)
     /\ forall k : string,
          ~ In k (slot_columns environment) -> r' !! k = r !! k)
  /\ (col r "id" <> VText id -> r' = r).

(** An engine that accepts every statement, and subscribers that accept
    every event. *)
Definition healthy : Database -> Stmt -> option error := fun _ _ => None.
Definition delivered : list Event -> option error := fun _ => None.

(** ** Example values *)

Definition example_config (t : TargetID) : EnvironmentConfig :=
  {| Target := t; Version := 0; Vars := None |}.

Definition example_action : Action := {| At := 0; By := "user-1" |}.

(** Targets [T1] and [T2] are live; [T3] carries a cleanup request. *)
Definition example_targets : list Row :=
  [ {[ "id" := VText "T1" ]};
    {[ "id" := VText "T2" ]};
    <[ "cleanup_requested_at" := VTime 7 ]> {[ "id" := VText "T3" ]} ].

(** A connection to a store with no app yet. *)
Definition example_empty : Conn :=
  {| tables := {| apps := []; targets := example_targets |}; issued := [] |}.

(** A freshly created app: its only pending event is [AppCreated]. *)
Definition example_app (id : AppID) (name : AppName)
    (production staging : TargetID) : App :=
  {| AppIdentity := id;
     PendingEvents :=
       [ AppCreated id name (example_config production)
           (example_config staging) example_action ] |}.

(** The store after app [app-a], named [n1], was written with production
    on [T1] and staging on [T2]. *)
Definition example_conn : Conn :=
  snd (AppsStore.Write healthy delivered
         [ example_app "app-a" "n1" "T1" "T2" ] example_empty).

(** A row mapper that accepts every row and keeps its id. *)
Definition example_AppFrom (row : list Value) : error + App :=
  match row with
  | VText id :: _ => inr {| AppIdentity := id; PendingEvents := [] |}
  | _ => inr {| AppIdentity := ""; PendingEvents := [] |}
  end.

(** ** [HasAppsOnTarget] *)

(** [EXISTS(SELECT 1 FROM apps WHERE production_target = ? OR staging_target = ?)] *)
Definition exists_app_on_target (production_target staging_target : Value)
    (db : Database) : bool :=
  existsb (fun a => sql_eq (col a "production_target") production_target
                    || sql_eq (col a "staging_target") staging_target)
    (apps db).

(** [appsStore.HasAppsOnTarget].  The scalar query binds the target to both
    placeholders and goes through builder's [Extract], declared outside the
    sources: the value is the scalar the engine computes, or the zero value
    next to the engine's error.  [refuses] is the engine's answer to this
    query on the current tables. *)
Definition HasAppsOnTarget (refuses : Database -> TargetID -> option error)
    (target : TargetID) (db : Database) : bool * option error :=
  match refuses db target with
  | Some err => (false, Some err)
  | None => (exists_app_on_target (VText target) (VText target) db, None)
  end.

(** ** Further vocabulary *)

(** The commands a list of effects invoked, and the errors it logged, in
    order. *)
Definition invocations (effects : list Deploy.Effect)
    : list Deploy.DeployCommand :=
  omap (fun e => match e with
                 | Deploy.DeployInvoked cmd => Some cmd
                 | Deploy.ErrorLogged _ _ _ _ => None
                 end) effects.

Definition logged_errors (effects : list Deploy.Effect) : list error :=
  omap (fun e => match e with
                 | Deploy.DeployInvoked _ => None
                 | Deploy.ErrorLogged _ err _ _ => Some err
                 end) effects.

(** Every row of the app [id] carries the name [name]. *)
Definition named (id : AppID) (name : AppName) (db : Database) : bool :=
  forallb (fun r => implb (sql_eq (col r "id") (VText id))
                          (sql_eq (col r "name") (VText name)))
    (apps db).

(** Some app other than [id] carries the name [name] and holds target [t]
    in [column]. *)
Definition held_by_other (column : string) (id : AppID) (name : AppName)
    (t : TargetID) (db : Database) : bool :=
  existsb (fun a => sql_ne (col a "id") (VText id)
                    && sql_eq (col a "name") (VText name)
                    && sql_eq (col a column) (VText t))
    (apps db).


(** How an update of the columns [columns] for app [id] relates a row
    before the write ([r]) to the row after it ([r']): a row of the app holds
    the listed values in the listed columns and is unchanged in every other
    column; a row of another app is unchanged. *)
Definition updated_row (id : AppID) (columns : list (string * Value))
    (r r' : Row) : Prop :=
  (col r "id" = VText id ->
     Forall (fun kv => col r' (fst kv) = snd kv) columns
     /\ forall k : string, ~ In k (map fst columns) -> r' !! k = r !! k)
  /\ (col r "id" <> VText id -> r' = r).

(** The events whose statement touches neither the name nor a target of an
    app: version control and cleanup bookkeeping. *)
Definition bookkeeping (e : Event) : bool :=
  match e with
  | AppVersionControlConfigured _ _ | AppVersionControlRemoved _
  | AppCleanupRequested _ _ => true
  | _ => false
  end.

(** Every row that holds target [t], in either slot, is a row of the app
    [id]. *)
Definition only_holder (id : AppID) (t : TargetID) (db : Database) : bool :=
  forallb (fun r => implb (sql_eq (col r "production_target") (VText t)
                           || sql_eq (col r "staging_target") (VText t))
                          (sql_eq (col r "id") (VText id)))
    (apps db).

(** The row [GetByID] reads back for an app right after its creation. *)
Definition created_row (id : AppID) (name : AppName)
    (production staging : EnvironmentConfig) (created : Action) : list Value :=
  [ VText id; VText name; VNull; VNull;
    VText (Target production); VTime (Version production);
    text_opt (Vars production);
    VText (Target staging); VTime (Version staging);
    text_opt (Vars staging);
    VNull; VNull;
    VTime (At created); VText (By created) ].

(** The store of [example_conn] after a second app, [app-b], took the same
    name with production on [T2] and staging on [T1]. *)
Definition example_two_apps : Conn :=
  snd (AppsStore.Write healthy delivered
         [ example_app "app-b" "n1" "T2" "T1" ] example_conn).


(** An engine that answers every [HasAppsOnTarget] query. *)
Definition answers : Database -> TargetID -> option error := fun _ _ => None.

(** * Properties of the deploy handler *)

Section DeployHandler.

Import Deploy.

Lemma Sprintf_s_dot_s_inj (a b c : string) :
  Sprintf_s_dot_s a b = Sprintf_s_dot_s a c -> b = c.
Proof.
  unfold Sprintf_s_dot_s.
  induction a as [|ch a IH]; simpl; intros H.
  - now inversion H.
  - inversion H; auto.
Qed.

Lemma Prepare_request (disc : string) (evt : Request) :
  Prepare disc (PayloadRequest evt)
  = (Some {| DataAppID := AppID_of (ID evt);
             DataDeploymentNumber := DeploymentNumber_of (ID evt) |},
     Some (Sprintf_s_dot_s disc (ProjectName (Config evt))),
     None).
Proof. reflexivity. Qed.

(** C1, as stated, fails: two [DeploymentCreated] payloads for deployments
    1 and 2 of the same app differ in their domain identifier, yet with
    the same project name [Prepare] hands out the same dedupe key,
    whatever the discriminator is. *)
Lemma Prepare_same_key_for_distinct_deployments :
  ID {| ID := {| AppID_of := "app-a"; DeploymentNumber_of := 1 |};
        Config := {| ProjectName := "app-a-production";
                     ConfigEnvironment := Production |} |}
  <> ID {| ID := {| AppID_of := "app-a"; DeploymentNumber_of := 2 |};
           Config := {| ProjectName := "app-a-production";
                        ConfigEnvironment := Production |} |}
  /\ (forall disc : string,
       dedupe_key (Prepare disc (PayloadRequest
         {| ID := {| AppID_of := "app-a"; DeploymentNumber_of := 1 |};
            Config := {| ProjectName := "app-a-production";
                         ConfigEnvironment := Production |} |}))
       = dedupe_key (Prepare disc (PayloadRequest
         {| ID := {| AppID_of := "app-a"; DeploymentNumber_of := 2 |};
            Config := {| ProjectName := "app-a-production";
                         ConfigEnvironment := Production |} |}))).
Proof.
  split.
  - simpl. intros H. inversion H.
  - intros disc. reflexivity.
Qed.

(** C1, amended: [Prepare] on a [DeploymentCreated] payload succeeds, puts
    the app id and deployment number in the job data, and builds the
    dedupe key from the discriminator and the project name alone; so two
    payloads get the same key exactly when their project names agree. *)
Theorem Prepare_dedupe_key_by_project_name (disc : string) (e1 e2 : Request) :
  Prepare disc (PayloadRequest e1)
    = (Some {| DataAppID := AppID_of (ID e1);
               DataDeploymentNumber := DeploymentNumber_of (ID e1) |},
       Some (disc +:+ "." +:+ ProjectName (Config e1)),
       None)
  /\ (dedupe_key (Prepare disc (PayloadRequest e1))
      = dedupe_key (Prepare disc (PayloadRequest e2))
      <-> ProjectName (Config e1) = ProjectName (Config e2)).
Proof.
  split; [reflexivity|].
  rewrite !Prepare_request. unfold dedupe_key. simpl. split.
  - intros H. injection H as H. eapply Sprintf_s_dot_s_inj, H.
  - intros ->. reflexivity.
Qed.

(** Whatever error the deploy command returns, [Process] invokes the
    command once, logs the error and returns [nil]. *)
Lemma Process_swallows (h : handler) (job : Job) (data : Data) (err : error) :
  JobData_of job = JobDeployData data ->
  deploy h {| CmdAppID := DataAppID data;
              CmdDeploymentNumber := DataDeploymentNumber data |} = Some err ->
  Process h job
  = (None,
     [ DeployInvoked {| CmdAppID := DataAppID data;
                        CmdDeploymentNumber := DataDeploymentNumber data |};
       ErrorLogged "deploy job has failed" err (DataAppID data)
         (DataDeploymentNumber data) ]).
Proof. intros Hd He. unfold Process. rewrite Hd, He. reflexivity. Qed.

(** C2, at the failing input: the deploy command fails with an error of
    the sql layer, and [Process] logs it and returns [nil] instead of the
    error. *)
Theorem Process_returns_nil_on_sql_error :
  Process (New (fun _ => Some (InfraError "database is locked")))
          {| JobID := "job-1";
             JobData_of := JobDeployData
               {| DataAppID := "app-a"; DataDeploymentNumber := 1 |} |}
  = (None,
     [ DeployInvoked {| CmdAppID := "app-a"; CmdDeploymentNumber := 1 |};
       ErrorLogged "deploy job has failed"
         (InfraError "database is locked") "app-a" 1 ]).
Proof. reflexivity. Qed.

(** C3: a job whose data is not the handler's [Data] makes [Process]
    return the invalid-payload error with no effect at all: the deploy
    command is not invoked and nothing is logged. *)
Theorem Process_invalid_payload (h : handler) (job : Job) :
  CanProcess (JobData_of job) = false ->
  Process h job = (Some ErrInvalidPayload, []).
Proof.
  unfold Process, CanProcess. destruct (JobData_of job); [discriminate|reflexivity].
Qed.

Lemma Process_invalid_payload_witness :
  Process (New (fun _ => None))
          {| JobID := "job-2"; JobData_of := JobOtherData "cleanup" |}
  = (Some ErrInvalidPayload, []).
Proof. apply Process_invalid_payload. reflexivity. Defined.

End DeployHandler.

(** * Properties of the apps store *)

Lemma sql_eq_true (a b : Value) : sql_eq a b = true <-> a = b /\ a <> VNull.
Proof.
  unfold sql_eq.
  destruct a, b; try rewrite bool_decide_eq_true;
    split; try (intros [? ?]); try intros ?; try split;
    congruence.
Qed.

Lemma sql_eq_text (s t : string) : sql_eq (VText s) (VText t) = true <-> s = t.
Proof. rewrite sql_eq_true. split; [intros [H _]; congruence|intros ->; split; congruence]. Qed.

Lemma sql_ne_same (a : Value) : sql_ne a a = false.
Proof. destruct a; simpl; try reflexivity; now rewrite bool_decide_eq_true_2. Qed.

Lemma scan_sql_bool (b : bool) : scan_bool (sql_bool b) = inr b.
Proof. now destruct b. Qed.

Lemma mapper_sql_bools (a b c d : bool) :
  appNameUniquenessResultMapper [sql_bool a; sql_bool b; sql_bool c; sql_bool d]
  = inr {| productionAvailable := a; productionTargetFound := b;
           stagingAvailable := c; stagingTargetFound := d |}.
Proof. now destruct a, b, c, d. Qed.

(** A target whose rows all carry a cleanup request is not a live target. *)
Lemma cleanup_pending_not_live (t : TargetID) (db : Database) :
  cleanup_pending t db = true -> exists_live_target (VText t) db = false.
Proof.
  unfold cleanup_pending, exists_live_target.
  rewrite andb_true_iff. intros [_ Hall].
  rewrite forallb_forall in Hall.
  apply not_true_is_false. rewrite existsb_exists.
  intros (r & Hin & Hr). apply andb_true_iff in Hr as [Hid Hnull].
  specialize (Hall r Hin). rewrite Hid, Hnull in Hall. discriminate.
Qed.

(** A stored app has a source row, which is one of its rows. *)
Lemma source_row_of_stored (id : AppID) (db : Database) :
  stored id db = true ->
  exists src, source_row id db = Some src
              /\ In src (apps db)
              /\ sql_eq (col src "id") (VText id) = true.
Proof.
  unfold stored, source_row. rewrite existsb_exists.
  intros (r & Hin & Hr).
  assert (Hf : r ∈ filter (fun src => sql_eq (col src "id") (VText id) = true)
                     (apps db)).
  { apply list_elem_of_filter. split; [exact Hr|now apply list_elem_of_In]. }
  destruct (filter _ (apps db)) as [|src rest] eqn:E.
  - inversion Hf.
  - exists src. split; [reflexivity|].
    assert (Hs : src ∈ filter (fun src => sql_eq (col src "id") (VText id) = true)
                       (apps db)) by (rewrite E; left).
    apply list_elem_of_filter in Hs as [Hp Hs].
    split; [now apply list_elem_of_In|exact Hp].
Qed.



(** The keys of a three-column [builder.Values]. *)
Lemma three_columns_keys (k1 k2 k3 k : string) (v1 v2 v3 : Value) :
  is_Some ((<[k1 := v1]> (<[k2 := v2]> (<[k3 := v3]> (∅ : Row)))) !! k)
  <-> In k [k1; k2; k3].
Proof.
  rewrite !lookup_insert_is_Some, lookup_empty, is_Some_alt. simpl.
  destruct (decide (k1 = k)), (decide (k2 = k)), (decide (k3 = k)); tauto.
Qed.

(** Overwriting three distinct columns of a row: the three columns hold the
    new values and every other column is as before. *)
Lemma three_columns_update (k1 k2 k3 : string) (v1 v2 v3 : Value) (r : Row) :
  k1 <> k2 -> k1 <> k3 -> k2 <> k3 ->
  col ((<[k1 := v1]> (<[k2 := v2]> (<[k3 := v3]> ∅))) ∪ r) k1 = v1
  /\ col ((<[k1 := v1]> (<[k2 := v2]> (<[k3 := v3]> ∅))) ∪ r) k2 = v2
  /\ col ((<[k1 := v1]> (<[k2 := v2]> (<[k3 := v3]> ∅))) ∪ r) k3 = v3
  /\ forall k : string,
       ~ In k [k1; k2; k3] ->
       ((<[k1 := v1]> (<[k2 := v2]> (<[k3 := v3]> ∅))) ∪ r) !! k = r !! k.
Proof.
  intros H12 H13 H23. unfold col.
  repeat split.
  - erewrite lookup_union_Some_l; [reflexivity|]. apply lookup_insert_eq.
  - erewrite lookup_union_Some_l; [reflexivity|].
    rewrite lookup_insert_ne by exact H12. apply lookup_insert_eq.
  - erewrite lookup_union_Some_l; [reflexivity|].
    rewrite !lookup_insert_ne by assumption. apply lookup_insert_eq.
  - intros k Hk. apply lookup_union_r.
    rewrite !lookup_insert_ne by (intros <-; apply Hk; simpl; tauto).
    apply lookup_empty.
Qed.

(** The columns of the row an [AppCreated] event inserts that the naming
    queries read. *)
Lemma created_row_columns (id : AppID) (name : AppName)
    (production staging : EnvironmentConfig) (created : Action) (values : Row) :
  AppsStore.statement_of (AppCreated id name production staging created)
    = Some (InsertApps values) ->
  col values "id" = VText id
  /\ col values "name" = VText name
  /\ col values "production_target" = VText (Target production)
  /\ col values "staging_target" = VText (Target staging).
Proof. intros [= <-]. repeat split. Qed.

(** The name lookup after one more row was inserted. *)
Lemma exists_app_named_insert (column : string) (name target : Value)
    (values : Row) (db : Database) :
  exists_app_named column name target (mutate (InsertApps values) db)
  = exists_app_named column name target db
    || (sql_eq (col values "name") name && sql_eq (col values column) target).
Proof.
  unfold exists_app_named. simpl. rewrite existsb_app. simpl.
  now rewrite orb_false_r.
Qed.

Section StoreFacts.

Import AppsStore.

Variable fault : Database -> Stmt -> option error.
Variable dispatch : list Event -> option error.
Variable AppFrom : list Value -> error + App.

(** What [CheckAppNamingAvailability] returns, by cases on the engine. *)
Lemma CheckAppNamingAvailability_result (name : AppName)
    (production staging : EnvironmentConfig) (c : Conn) :
  fst (CheckAppNamingAvailability fault name production staging c)
  = match fault (tables c)
            (SelectNaming (VText name) (VText (Target production))
               (VText (Target staging))) with
    | Some err => (zero_requirement, zero_requirement, Some err)
    | None =>
        (NewEnvironmentConfigRequirement production
           (exists_live_target (VText (Target production)) (tables c))
           (negb (exists_app_named "production_target" (VText name)
                    (VText (Target production)) (tables c))),
         NewEnvironmentConfigRequirement staging
           (exists_live_target (VText (Target staging)) (tables c))
           (negb (exists_app_named "staging_target" (VText name)
                    (VText (Target staging)) (tables c))),
         None)
    end.
Proof.
  unfold CheckAppNamingAvailability, bind, One.
  destruct (fault _ _); [reflexivity|].
  cbn [select]. rewrite mapper_sql_bools. reflexivity.
Qed.

(** What [CheckAppNamingAvailabilityByID] returns when a slot is present,
    by cases on the engine and on the presence of the app. *)
Lemma CheckAppNamingAvailabilityByID_result (id : AppID)
    (production staging : option EnvironmentConfig) (c : Conn) :
  is_Some production \/ is_Some staging ->
  fst (CheckAppNamingAvailabilityByID fault id production staging c)
  = match fault (tables c) (naming_by_id_query id production staging) with
    | Some err => (zero_requirement, zero_requirement, Some err)
    | None =>
        match source_row id (tables c) with
        | None => (zero_requirement, zero_requirement, Some ErrNoRows)
        | Some src =>
            (by_id_requirement "production_target" src production (tables c),
             by_id_requirement "staging_target" src staging (tables c),
             None)
        end
    end.
Proof.
  intros Hsome.
  assert (Hgo : fst (CheckAppNamingAvailabilityByID fault id production staging c)
    = fst ((r <- One fault (naming_by_id_query id production staging)
                  appNameUniquenessResultMapper ;;;
           match r with
           | inl err => ret (zero_requirement, zero_requirement, Some err)
           | inr r =>
               ret (match production with
                    | Some v => NewEnvironmentConfigRequirement v
                                  (productionTargetFound r) (productionAvailable r)
                    | None => zero_requirement
                    end,
                    match staging with
                    | Some v => NewEnvironmentConfigRequirement v
                                  (stagingTargetFound r) (stagingAvailable r)
                    | None => zero_requirement
                    end,
                    None)
           end) c)).
  { unfold CheckAppNamingAvailabilityByID.
    destruct production, staging; try reflexivity.
    destruct Hsome as [[? ?]|[? ?]]; discriminate. }
  rewrite Hgo. clear Hgo Hsome.
  unfold bind, One, source_row.
  destruct (fault _ _); [reflexivity|].
  unfold naming_by_id_query. cbn [select].
  destruct (filter _ (apps (tables c))) as [|src rest]; [reflexivity|].
  cbn [map head].
  destruct production as [p|], staging as [s|]; cbn [by_id_slot app];
    unfold by_id_requirement, sql_bool;
    repeat match goal with
    | |- context [exists_other_app_named ?a ?b ?d ?e] =>
        destruct (exists_other_app_named a b d e)
    | |- context [exists_live_target ?a ?b] =>
        destruct (exists_live_target a b)
    end; reflexivity.
Qed.

(** C10: with both configurations absent, [CheckAppNamingAvailabilityByID]
    returns two zero-value requirements and a [nil] error, and the
    connection is left as it was: no statement is sent to the engine and
    the tables are untouched. *)
Theorem CheckAppNamingAvailabilityByID_nothing_to_check (id : AppID) (c : Conn) :
  CheckAppNamingAvailabilityByID fault id None None c
  = ((zero_requirement, zero_requirement, None), c).
Proof. reflexivity. Qed.

(** C5: when the target of a configuration is cleanup-pending, both
    checks report target-exists = false for the slot holding that
    configuration, in the production and in the staging position,
    whatever the name, the app id, the other slot and the rest of the
    tables are. *)
Theorem cleanup_pending_target_not_found (name : AppName) (id : AppID)
    (config other : EnvironmentConfig) (absent : option EnvironmentConfig)
    (c : Conn) :
  cleanup_pending (Target config) (tables c) = true ->
  ReqTargetFound (production_of
    (fst (CheckAppNamingAvailability fault name config other c))) = false
  /\ ReqTargetFound (staging_of
    (fst (CheckAppNamingAvailability fault name other config c))) = false
  /\ ReqTargetFound (production_of
    (fst (CheckAppNamingAvailabilityByID fault id (Some config) absent c))) = false
  /\ ReqTargetFound (staging_of
    (fst (CheckAppNamingAvailabilityByID fault id absent (Some config) c))) = false.
Proof.
  intros Hpending. apply cleanup_pending_not_live in Hpending.
  repeat split.
  - rewrite CheckAppNamingAvailability_result.
    destruct (fault _ _); [reflexivity|]. exact Hpending.
  - rewrite CheckAppNamingAvailability_result.
    destruct (fault _ _); [reflexivity|]. exact Hpending.
  - rewrite CheckAppNamingAvailabilityByID_result by (left; eauto).
    destruct (fault _ _); [reflexivity|].
    destruct (source_row _ _); [exact Hpending|reflexivity].
  - rewrite CheckAppNamingAvailabilityByID_result by (right; eauto).
    destruct (fault _ _); [reflexivity|].
    destruct (source_row _ _); [exact Hpending|reflexivity].
Qed.


(** The callback on an event of the type switch: the statement goes
    through [Exec]. *)
Lemma write_event_listed (e : Event) (q : Stmt) (c : Conn) :
  statement_of e = Some q ->
  write_event fault e c
  = match fault (tables c) q with
    | Some err => (Some err, sent q c)
    | None => (None, {| tables := mutate q (tables c);
                        issued := issued c ++ [q] |})
    end.
Proof. intros H. unfold write_event, Exec. rewrite H. reflexivity. Qed.

(** A batch that ends with [e] and goes through without error has applied
    [e] last, on the connection the events before it left. *)
Lemma apply_events_snoc (before : list Event) (e : Event) (c c' : Conn) :
  apply_events (write_event fault) (before ++ [e]) c = (None, c') ->
  exists c1, apply_events (write_event fault) before c = (None, c1)
             /\ write_event fault e c1 = (None, c').
Proof.
  revert c. induction before as [|x before IH]; intros c; simpl.
  - unfold bind, ret. destruct (write_event fault e c) as [[err|] c1] eqn:E.
    + discriminate.
    + intros [= <-]. exists c. auto.
  - unfold bind at 1. unfold ret at 1.
    destruct (write_event fault x c) as [[err|] c1] eqn:E.
    + discriminate.
    + intros H. apply IH in H as (c2 & H1 & H2).
      exists c2. unfold bind at 1. rewrite E. auto.
Qed.

(** [Write] returns [nil] only when every event went through and was
    dispatched; the connection it leaves is the one after the last
    event. *)
Lemma Write_nil (aggregates : list App) (c : Conn) :
  fst (Write fault dispatch aggregates c) = None ->
  apply_events (write_event fault) (concat (map PendingEvents aggregates)) c
  = (None, snd (Write fault dispatch aggregates c)).
Proof.
  unfold Write, WriteAndDispatch.
  destruct (apply_events _ _ c) as [[err|] c'] eqn:E; simpl.
  - discriminate.
  - reflexivity.
Qed.

(** C7: an event that is none of the six variants of the type switch is a
    no-op for the writer: the callback returns [nil] and leaves the
    connection as it was (no statement sent, every row unchanged), and
    taking the event out of any batch changes neither the batch's result
    nor the connection it leaves. *)
Theorem Write_skips_unlisted_event (e : Event) (c : Conn) :
  listed_in_Write e = false ->
  write_event fault e c = (None, c)
  /\ (forall (before after : list Event) (c0 : Conn),
        apply_events (write_event fault) (before ++ e :: after) c0
        = apply_events (write_event fault) (before ++ after) c0).
Proof.
  intros Hunlisted.
  assert (Hnoop : forall c1, write_event fault e c1 = (None, c1)).
  { intros c1. destruct e; try discriminate; reflexivity. }
  split; [apply Hnoop|].
  induction before as [|x before IH]; intros after c0; simpl.
  - unfold bind at 1. rewrite Hnoop. reflexivity.
  - unfold bind. destruct (write_event fault x c0) as [[err|] c1].
    + reflexivity.
    + apply IH.
Qed.

(** Deleting leaves no row of the app behind. *)
Lemma not_stored_after_delete (id : AppID) (db : Database) :
  stored id (mutate (DeleteApps (VText id)) db) = false.
Proof.
  unfold stored. apply not_true_is_false. rewrite existsb_exists.
  intros (r & Hin & Hr). simpl in Hin.
  apply list_elem_of_In, list_elem_of_filter in Hin as [Hne _].
  contradiction.
Qed.

(** An app that is not stored has no row for [GetByID] to map. *)
Lemma select_app_not_stored (id : AppID) (db : Database) :
  stored id db = false -> select (SelectAppByID (VText id)) db = [].
Proof.
  intros Hns. simpl.
  destruct (filter _ (apps db)) as [|r rest] eqn:E; [reflexivity|].
  assert (Hr : r ∈ filter (fun r => sql_eq (col r "id") (VText id) = true)
                     (apps db)) by (rewrite E; left).
  apply list_elem_of_filter in Hr as [Hp Hr].
  assert (stored id db = true); [|congruence].
  unfold stored. rewrite existsb_exists. exists r.
  split; [now apply list_elem_of_In|exact Hp].
Qed.

(** C9: once [Write] has gone through a batch that ends with the
    [AppDeleted] event of an app, the app has no row left, and [GetByID]
    on that id fails: it never returns an app, and whenever the engine
    answers the query the error is the not-found error. *)
Theorem GetByID_not_found_after_AppDeleted (aggregates : list App)
    (before : list Event) (id : AppID) (c : Conn) :
  concat (map PendingEvents aggregates) = before ++ [AppDeleted id] ->
  fst (Write fault dispatch aggregates c) = None ->
  stored id (tables (snd (Write fault dispatch aggregates c))) = false
  /\ (exists err,
        fst (GetByID fault AppFrom id (snd (Write fault dispatch aggregates c)))
        = inl err)
  /\ (fault (tables (snd (Write fault dispatch aggregates c)))
            (SelectAppByID (VText id)) = None ->
      fst (GetByID fault AppFrom id (snd (Write fault dispatch aggregates c)))
      = inl ErrNoRows).
Proof.
  intros Hevents Hnil. apply Write_nil in Hnil. rewrite Hevents in Hnil.
  apply apply_events_snoc in Hnil as (c1 & _ & Hdel).
  rewrite (write_event_listed _ (DeleteApps (VText id))) in Hdel by reflexivity.
  destruct (fault (tables c1) _); [discriminate|].
  assert (Htables : tables (snd (Write fault dispatch aggregates c))
                    = mutate (DeleteApps (VText id)) (tables c1))
    by (injection Hdel as <-; reflexivity).
  pose proof (not_stored_after_delete id (tables c1)) as Hns.
  rewrite <- Htables in Hns.
  split; [exact Hns|].
  unfold GetByID, One.
  rewrite (select_app_not_stored _ _ Hns).
  split.
  - destruct (fault _ _) as [err|]; eauto.
  - intros ->. reflexivity.
Qed.

(** A one-event batch that [Write] went through has applied that event to
    the connection [Write] was given. *)
Lemma Write_single_event (aggregates : list App) (e : Event) (q : Stmt)
    (c : Conn) :
  concat (map PendingEvents aggregates) = [e] ->
  statement_of e = Some q ->
  fst (Write fault dispatch aggregates c) = None ->
  fault (tables c) q = None
  /\ tables (snd (Write fault dispatch aggregates c)) = mutate q (tables c)
  /\ issued (snd (Write fault dispatch aggregates c)) = issued c ++ [q].
Proof.
  intros Hevents Hq Hnil. apply Write_nil in Hnil. rewrite Hevents in Hnil.
  apply (apply_events_snoc []) in Hnil as (c1 & Hc1 & He).
  injection Hc1 as <-.
  rewrite (write_event_listed _ _ _ Hq) in He.
  destruct (fault (tables c) q); [discriminate|].
  injection He as <-. auto.
Qed.

(** C8: when [Write] goes through an [AppEnvChanged] event, the statement
    it sends names exactly the three columns of the event's slot, whose
    prefix is [production] or [staging] and which are columns of [apps];
    afterwards the [targets] table is as before, and [apps] has the same
    rows in the same order, where each row whose id is the event's app id
    holds the new target, version and vars in those three columns and is
    unchanged in every other column, and each other row is unchanged. *)
Theorem Write_AppEnvChanged_updates_slot (aggregates : list App)
    (id : AppID) (environment : Environment) (config : EnvironmentConfig)
    (c : Conn) :
  concat (map PendingEvents aggregates) = [AppEnvChanged id environment config] ->
  fst (Write fault dispatch aggregates c) = None ->
  (Environment_string environment = "production"
   \/ Environment_string environment = "staging")
  /\ Forall (fun k => k ∈ apps_columns) (slot_columns environment)
  /\ (exists values : Row,
        issued (snd (Write fault dispatch aggregates c))
        = issued c ++ [UpdateApps values (VText id)]
        /\ forall k : string,
             is_Some (values !! k) <-> In k (slot_columns environment))
  /\ targets (tables (snd (Write fault dispatch aggregates c)))
     = targets (tables c)
  /\ Forall2 (env_changed_row id environment config)
       (apps (tables c))
       (apps (tables (snd (Write fault dispatch aggregates c)))).
Proof.
  intros Hevents Hnil.
  destruct (Write_single_event _ _ _ _ Hevents eq_refl Hnil)
    as (_ & Htables & Hissued).
  rewrite Htables, Hissued. clear Htables Hissued Hevents Hnil.
  split; [destruct environment; auto|].
  split; [destruct environment; compute_done|].
  split.
  { eexists. split; [reflexivity|]. intros k. apply three_columns_keys. }
  split; [reflexivity|].
  cbn [mutate apps].
  induction (apps (tables c)) as [|r rows IH]; simpl; constructor; [|exact IH].
  unfold env_changed_row. split.
  - intros Hid. rewrite Hid.
    assert (Hself : sql_eq (VText id) (VText id) = true) by now apply sql_eq_text.
    rewrite Hself.
    apply three_columns_update; destruct environment; discriminate.
  - intros Hid. destruct (sql_eq (col r "id") (VText id)) eqn:E; [|reflexivity].
    apply sql_eq_true in E as [E _]. contradiction.
Qed.

(** C6, amended: once [Write] has gone through the [AppCreated] event of
    an app, a creation check for the same name reports name-available =
    false in the production slot for the app's production target and in
    the staging slot for its staging target; for another target in a slot,
    one that no app stored before bound the name to in that slot, a check
    that returns no error reports name-available = true. *)
Theorem CheckAppNamingAvailability_after_AppCreated (aggregates : list App)
    (id : AppID) (name : AppName) (production staging : EnvironmentConfig)
    (created : Action) (c : Conn) :
  concat (map PendingEvents aggregates)
    = [AppCreated id name production staging created] ->
  fst (Write fault dispatch aggregates c) = None ->
  (forall config other : EnvironmentConfig,
     Target config = Target production ->
     ReqAvailable (production_of (fst (CheckAppNamingAvailability fault name
       config other (snd (Write fault dispatch aggregates c))))) = false)
  /\ (forall config other : EnvironmentConfig,
     Target config = Target staging ->
     ReqAvailable (staging_of (fst (CheckAppNamingAvailability fault name
       other config (snd (Write fault dispatch aggregates c))))) = false)
  /\ (forall config other : EnvironmentConfig,
     Target config <> Target production ->
     exists_app_named "production_target" (VText name)
       (VText (Target config)) (tables c) = false ->
     error_of (fst (CheckAppNamingAvailability fault name
       config other (snd (Write fault dispatch aggregates c)))) = None ->
     ReqAvailable (production_of (fst (CheckAppNamingAvailability fault name
       config other (snd (Write fault dispatch aggregates c))))) = true)
  /\ (forall config other : EnvironmentConfig,
     Target config <> Target staging ->
     exists_app_named "staging_target" (VText name)
       (VText (Target config)) (tables c) = false ->
     error_of (fst (CheckAppNamingAvailability fault name
       other config (snd (Write fault dispatch aggregates c)))) = None ->
     ReqAvailable (staging_of (fst (CheckAppNamingAvailability fault name
       other config (snd (Write fault dispatch aggregates c))))) = true).
Proof.
  intros Hevents Hnil.
  destruct (statement_of (AppCreated id name production staging created))
    as [q|] eqn:Hq; [|discriminate].
  assert (Hins : exists values, q = InsertApps values)
    by (injection Hq as <-; eauto).
  destruct Hins as [values ->].
  destruct (created_row_columns _ _ _ _ _ _ Hq) as (_ & Hname & Hprod & Hstag).
  destruct (Write_single_event _ _ _ _ Hevents Hq Hnil) as (_ & Htables & _).
  assert (Hsame : forall t : TargetID, sql_eq (VText t) (VText t) = true)
    by (intros t; now apply sql_eq_text).
  assert (Hdiff : forall t u : TargetID, t <> u -> sql_eq (VText t) (VText u) = false).
  { intros t u Htu. apply not_true_is_false. rewrite sql_eq_text. exact Htu. }
  repeat split; intros config other Htarget;
    rewrite CheckAppNamingAvailability_result, Htables;
    (destruct (fault _ _) as [err|];
     [first [reflexivity | intros _ H; cbn in H; discriminate H]|]);
    cbn [production_of staging_of error_of fst snd
         NewEnvironmentConfigRequirement ReqAvailable];
    rewrite exists_app_named_insert, Hname, ?Hprod, ?Hstag, Hsame.
  - rewrite Htarget, Hsame. now rewrite orb_true_r.
  - rewrite Htarget, Hsame. now rewrite orb_true_r.
  - intros Hfree _.
    rewrite Hfree, (Hdiff _ _ (not_eq_sym Htarget)). reflexivity.
  - intros Hfree _.
    rewrite Hfree, (Hdiff _ _ (not_eq_sym Htarget)). reflexivity.
Qed.

End StoreFacts.

(** ** The statements above at concrete stores *)



Lemma cleanup_pending_target_not_found_witness :
  ReqTargetFound (production_of (fst (AppsStore.CheckAppNamingAvailability
    healthy "n2" (example_config "T3") (example_config "T1") example_conn)))
    = false
  /\ ReqTargetFound (staging_of (fst (AppsStore.CheckAppNamingAvailability
    healthy "n2" (example_config "T1") (example_config "T3") example_conn)))
    = false
  /\ ReqTargetFound (production_of (fst (AppsStore.CheckAppNamingAvailabilityByID
    healthy "app-a" (Some (example_config "T3")) None example_conn))) = false
  /\ ReqTargetFound (staging_of (fst (AppsStore.CheckAppNamingAvailabilityByID
    healthy "app-a" None (Some (example_config "T3")) example_conn))) = false.
Proof.
  apply (cleanup_pending_target_not_found healthy "n2" "app-a"
           (example_config "T3") (example_config "T1") None example_conn).
  reflexivity.
Defined.

(** C6, as stated, fails: app [app-x] holds the name [n1] on [T2]; after
    app [app-a] is created with the same name on [T1], the creation check
    for [n1] on the different, existing target [T2] reports target-exists =
    true and name-available = false. *)
Lemma CheckAppNamingAvailability_other_target_taken :
  fst (AppsStore.Write healthy delivered [ example_app "app-a" "n1" "T1" "T1" ]
         (snd (AppsStore.Write healthy delivered
                 [ example_app "app-x" "n1" "T2" "T2" ] example_empty)))
    = None
  /\ fst (AppsStore.CheckAppNamingAvailability healthy "n1"
            (example_config "T2") (example_config "T2")
            (snd (AppsStore.Write healthy delivered
                    [ example_app "app-a" "n1" "T1" "T1" ]
                    (snd (AppsStore.Write healthy delivered
                            [ example_app "app-x" "n1" "T2" "T2" ]
                            example_empty)))))
     = (NewEnvironmentConfigRequirement (example_config "T2") true false,
        NewEnvironmentConfigRequirement (example_config "T2") true false,
        None).
Proof. split; reflexivity. Qed.

Lemma CheckAppNamingAvailability_after_AppCreated_witness :
  ReqAvailable (production_of (fst (AppsStore.CheckAppNamingAvailability healthy
    "n1" (example_config "T1") (example_config "T1") example_conn))) = false
  /\ ReqAvailable (production_of (fst (AppsStore.CheckAppNamingAvailability healthy
    "n1" (example_config "T2") (example_config "T1") example_conn))) = true.
Proof.
  pose proof (CheckAppNamingAvailability_after_AppCreated healthy delivered
                [ example_app "app-a" "n1" "T1" "T2" ] "app-a" "n1"
                (example_config "T1") (example_config "T2") example_action
                example_empty eq_refl eq_refl)
    as (Htaken & _ & Hfree & _).
  split.
  - apply (Htaken (example_config "T1") (example_config "T1")). reflexivity.
  - apply (Hfree (example_config "T2") (example_config "T1")).
    + discriminate.
    + reflexivity.
    + reflexivity.
Defined.

Lemma Write_skips_unlisted_event_witness :
  AppsStore.write_event healthy (EvOther "UserRegistered") example_conn
    = (None, example_conn)
  /\ (forall (before after : list Event) (c0 : Conn),
        AppsStore.apply_events (AppsStore.write_event healthy)
          (before ++ EvOther "UserRegistered" :: after) c0
        = AppsStore.apply_events (AppsStore.write_event healthy)
            (before ++ after) c0).
Proof.
  apply (Write_skips_unlisted_event healthy (EvOther "UserRegistered")
           example_conn).
  reflexivity.
Defined.

Lemma Write_AppEnvChanged_updates_slot_witness :
  Forall2 (env_changed_row "app-a" Staging (example_config "T1"))
    (apps (tables example_conn))
    (apps (tables (snd (AppsStore.Write healthy delivered
       [ {| AppIdentity := "app-a";
            PendingEvents :=
              [ AppEnvChanged "app-a" Staging (example_config "T1") ] |} ]
       example_conn)))).
Proof.
  apply (Write_AppEnvChanged_updates_slot healthy delivered
           [ {| AppIdentity := "app-a";
                PendingEvents :=
                  [ AppEnvChanged "app-a" Staging (example_config "T1") ] |} ]
           "app-a" Staging (example_config "T1") example_conn);
    reflexivity.
Defined.

Lemma GetByID_not_found_after_AppDeleted_witness :
  fst (AppsStore.GetByID healthy example_AppFrom "app-a" example_conn)
    = inr {| AppIdentity := "app-a"; PendingEvents := [] |}
  /\ fst (AppsStore.GetByID healthy example_AppFrom "app-a"
            (snd (AppsStore.Write healthy delivered
                    [ {| AppIdentity := "app-a";
                         PendingEvents := [ AppDeleted "app-a" ] |} ]
                    example_conn)))
     = inl ErrNoRows.
Proof.
  split; [reflexivity|].
  apply (GetByID_not_found_after_AppDeleted healthy delivered example_AppFrom
           [ {| AppIdentity := "app-a";
                PendingEvents := [ AppDeleted "app-a" ] |} ]
           [] "app-a" example_conn); reflexivity.
Defined.

(** * Further properties of the deploy handler *)

Section DeployCoverage.

Import Deploy.

(** X1: [CanPrepare] and [Prepare] agree: [Prepare] returns no error exactly
    on the payloads [CanPrepare] accepts, and on every other payload it
    returns no data, no dedupe key and the invalid-payload error. *)
Theorem Prepare_agrees_with_CanPrepare (disc : string) (payload : Payload) :
  (CanPrepare payload = true <-> error_of (Prepare disc payload) = None)
  /\ (CanPrepare payload = false
      <-> Prepare disc payload = (None, None, Some ErrInvalidPayload)).
Proof.
  destruct payload as [evt|other]; simpl; split; split;
    intros H; try reflexivity; try discriminate.
Qed.

(** X2: the only error [Process] ever returns is the invalid-payload error,
    and it returns it exactly for the data [CanProcess] refuses; for the
    data it accepts the result is [nil], whatever the deploy command
    answers. *)
Theorem Process_error_by_CanProcess (h : handler) (job : Job) :
  fst (Process h job)
  = if CanProcess (JobData_of job) then None else Some ErrInvalidPayload.
Proof.
  unfold Process, CanProcess.
  destruct (JobData_of job) as [data|other]; [|reflexivity].
  destruct (deploy h _); reflexivity.
Qed.

(** X3: a job that carries the data [Prepare] made from a
    [DeploymentCreated] event makes [Process] invoke the deploy command
    exactly once, for the app id and the deployment number of the event;
    [Process] returns [nil] and logs exactly the error the command
    returned, if any. *)
Theorem Process_deploys_what_Prepare_stored (disc : string) (h : handler)
    (evt : Request) (data : Data) (key : option string) (job : Job) :
  Prepare disc (PayloadRequest evt) = (Some data, key, None) ->
  JobData_of job = JobDeployData data ->
  fst (Process h job) = None
  /\ invocations (snd (Process h job))
     = [ {| CmdAppID := AppID_of (ID evt);
            CmdDeploymentNumber := DeploymentNumber_of (ID evt) |} ]
  /\ logged_errors (snd (Process h job))
     = match deploy h {| CmdAppID := AppID_of (ID evt);
                         CmdDeploymentNumber := DeploymentNumber_of (ID evt) |}
       with
       | Some err => [err]
       | None => []
       end.
Proof.
  intros Hprepare Hdata. rewrite Prepare_request in Hprepare.
  injection Hprepare as <- _. unfold Process. rewrite Hdata. simpl.
  destruct (deploy h _) as [err|]; repeat split.
Qed.

Lemma Process_deploys_what_Prepare_stored_witness :
  fst (Process (New (fun _ => Some (DomainError "build failed")))
         {| JobID := "job-3";
            JobData_of := JobDeployData
              {| DataAppID := "app-a"; DataDeploymentNumber := 4 |} |})
    = None
  /\ invocations (snd (Process (New (fun _ => Some (DomainError "build failed")))
         {| JobID := "job-3";
            JobData_of := JobDeployData
              {| DataAppID := "app-a"; DataDeploymentNumber := 4 |} |}))
     = [ {| CmdAppID := "app-a"; CmdDeploymentNumber := 4 |} ]
  /\ logged_errors (snd (Process (New (fun _ => Some (DomainError "build failed")))
         {| JobID := "job-3";
            JobData_of := JobDeployData
              {| DataAppID := "app-a"; DataDeploymentNumber := 4 |} |}))
     = [ DomainError "build failed" ].
Proof.
  apply (Process_deploys_what_Prepare_stored "deploy"
           (New (fun _ => Some (DomainError "build failed")))
           {| ID := {| AppID_of := "app-a"; DeploymentNumber_of := 4 |};
              Config := {| ProjectName := "app-a-production";
                           ConfigEnvironment := Production |} |}
           {| DataAppID := "app-a"; DataDeploymentNumber := 4 |}
           (Some "deploy.app-a-production")
           {| JobID := "job-3";
              JobData_of := JobDeployData
                {| DataAppID := "app-a"; DataDeploymentNumber := 4 |} |});
    reflexivity.
Defined.

End DeployCoverage.

(** * Further properties of the apps store *)

Lemma sql_eq_text_value (v : Value) (s : string) :
  sql_eq v (VText s) = true <-> v = VText s.
Proof.
  rewrite sql_eq_true. split; [tauto|]. intros ->. split; congruence.
Qed.

(** An app that has no row has no source row for the by-id query. *)
Lemma source_row_not_stored (id : AppID) (db : Database) :
  stored id db = false -> source_row id db = None.
Proof.
  intros Hns. unfold source_row.
  destruct (filter _ (apps db)) as [|r rest] eqn:E; [reflexivity|].
  assert (Hr : r ∈ filter (fun src => sql_eq (col src "id") (VText id) = true)
                     (apps db)) by (rewrite E; left).
  apply list_elem_of_filter in Hr as [Hp Hr].
  assert (stored id db = true); [|congruence].
  unfold stored. rewrite existsb_exists. exists r.
  split; [now apply list_elem_of_In|exact Hp].
Qed.

(** Overwriting the columns of [columns] in a row: the listed columns hold
    the listed values and every other column is as before. *)
Lemma columns_update (columns : list (string * Value)) (r : Row) :
  NoDup (map fst columns) ->
  Forall (fun kv => col (list_to_map columns ∪ r) (fst kv) = snd kv) columns
  /\ forall k : string,
       ~ In k (map fst columns) -> (list_to_map columns ∪ r) !! k = r !! k.
Proof.
  intros Hnodup. split.
  - apply Forall_forall. intros [k v] Hkv. unfold col. simpl.
    erewrite lookup_union_Some_l; [reflexivity|].
    apply elem_of_list_to_map_1; [exact Hnodup|exact Hkv].
  - intros k Hk. apply lookup_union_r, not_elem_of_list_to_map_1.
    intros Hin. apply Hk, list_elem_of_In. exact Hin.
Qed.

(** What an update statement does to the rows of [apps]. *)
Lemma update_rows (id : AppID) (columns : list (string * Value))
    (db : Database) :
  NoDup (map fst columns) ->
  targets (mutate (UpdateApps (list_to_map columns) (VText id)) db) = targets db
  /\ Forall2 (updated_row id columns) (apps db)
       (apps (mutate (UpdateApps (list_to_map columns) (VText id)) db)).
Proof.
  intros Hnodup. split; [reflexivity|]. cbn [mutate apps].
  induction (apps db) as [|r rows IH]; simpl; constructor; [|exact IH].
  unfold updated_row. split.
  - intros Hid.
    assert (Hself : sql_eq (col r "id") (VText id) = true)
      by now apply sql_eq_text_value.
    rewrite Hself. now apply columns_update.
  - intros Hid. destruct (sql_eq (col r "id") (VText id)) eqn:E; [|reflexivity].
    apply sql_eq_text_value in E. contradiction.
Qed.

(** An update that writes neither [name] nor [column] does not change which
    names are bound to which targets in [column]. *)
Lemma exists_app_named_update (column : string) (name target : Value)
    (values : Row) (id : Value) (db : Database) :
  values !! "name" = None -> values !! column = None ->
  exists_app_named column name target (mutate (UpdateApps values id) db)
  = exists_app_named column name target db.
Proof.
  intros Hname Hcolumn. unfold exists_app_named. cbn [mutate apps].
  induction (apps db) as [|r rows IH]; [reflexivity|]. simpl. rewrite IH.
  destruct (sql_eq (col r "id") id); [|reflexivity].
  unfold col. now rewrite !lookup_union_r by assumption.
Qed.

Section StoreCoverage.

Import AppsStore.

Variable fault : Database -> Stmt -> option error.
Variable dispatch : list Event -> option error.
Variable AppFrom : list Value -> error + App.

(** X4: when a slot is given and the engine answers the query, the by-id
    check returns no error exactly when the app is stored, and it returns
    the not-found error with two zero-value requirements exactly when the
    app has no row. *)
Theorem CheckAppNamingAvailabilityByID_unknown_app (id : AppID)
    (production staging : option EnvironmentConfig) (c : Conn) :
  is_Some production \/ is_Some staging ->
  fault (tables c) (naming_by_id_query id production staging) = None ->
  (error_of (fst (CheckAppNamingAvailabilityByID fault id production staging c))
     = None <-> stored id (tables c) = true)
  /\ (fst (CheckAppNamingAvailabilityByID fault id production staging c)
        = (zero_requirement, zero_requirement, Some ErrNoRows)
      <-> stored id (tables c) = false).
Proof.
  intros Hslot Hfault.
  rewrite (CheckAppNamingAvailabilityByID_result fault) by exact Hslot.
  rewrite Hfault.
  destruct (stored id (tables c)) eqn:Hstored.
  - destruct (source_row_of_stored _ _ Hstored) as (src & -> & _).
    split; split; try reflexivity; discriminate.
  - rewrite (source_row_not_stored _ _ Hstored).
    split; split; try reflexivity; discriminate.
Qed.

(** X5: the creation check reports an unavailable name or a missing target
    in the requirements, never as an error: the error it returns is the
    engine's answer to its query; when there is none each requirement
    carries the configuration it was asked about, and otherwise both
    requirements are zero values. *)
Theorem CheckAppNamingAvailability_fails_only_with_engine (name : AppName)
    (production staging : EnvironmentConfig) (c : Conn) :
  error_of (fst (CheckAppNamingAvailability fault name production staging c))
  = fault (tables c)
      (SelectNaming (VText name) (VText (Target production))
         (VText (Target staging)))
  /\ match error_of (fst (CheckAppNamingAvailability fault name production
                           staging c)) with
     | None =>
         ReqConfig (production_of
           (fst (CheckAppNamingAvailability fault name production staging c)))
         = production
         /\ ReqConfig (staging_of
           (fst (CheckAppNamingAvailability fault name production staging c)))
         = staging
     | Some _ =>
         production_of
           (fst (CheckAppNamingAvailability fault name production staging c))
         = zero_requirement
         /\ staging_of
           (fst (CheckAppNamingAvailability fault name production staging c))
         = zero_requirement
     end.
Proof.
  rewrite CheckAppNamingAvailability_result.
  destruct (fault _ _) as [err|]; simpl; auto.
Qed.

(** X6: each reader costs one round trip and leaves the tables alone: the
    creation check and [GetByID] send one statement each; the by-id check
    sends one statement when a slot is given, however many slots that is,
    and none when both are absent. *)
Theorem readers_send_one_statement (name : AppName) (id : AppID)
    (production staging : EnvironmentConfig)
    (maybe_production maybe_staging : option EnvironmentConfig) (c : Conn) :
  snd (CheckAppNamingAvailability fault name production staging c)
    = {| tables := tables c;
         issued := issued c
                   ++ [ SelectNaming (VText name) (VText (Target production))
                          (VText (Target staging)) ] |}
  /\ snd (CheckAppNamingAvailabilityByID fault id maybe_production
            maybe_staging c)
     = {| tables := tables c;
          issued := issued c
                    ++ match maybe_production, maybe_staging with
                       | None, None => []
                       | _, _ => [ naming_by_id_query id maybe_production
                                     maybe_staging ]
                       end |}
  /\ snd (GetByID fault AppFrom id c)
     = {| tables := tables c;
          issued := issued c ++ [ SelectAppByID (VText id) ] |}.
Proof.
  assert (Hone : forall (A : Type) (q : Stmt) (mapper : list Value -> error + A),
            snd (One fault q mapper c) = sent q c).
  { intros A q mapper. unfold One.
    destruct (fault _ _); [reflexivity|].
    destruct (select _ _); reflexivity. }
  repeat split.
  - unfold CheckAppNamingAvailability, bind.
    specialize (Hone _ (SelectNaming (VText name) (VText (Target production))
                          (VText (Target staging)))
                  appNameUniquenessResultMapper).
    destruct (One fault _ _ c) as [[err|r] c']; simpl in *; subst; reflexivity.
  - destruct maybe_production as [p|], maybe_staging as [s|];
      try (unfold CheckAppNamingAvailabilityByID, bind;
           match goal with
           | |- context [One fault ?q ?m c] =>
               specialize (Hone _ q m);
               destruct (One fault q m c) as [[err|r] c'];
               simpl in *; subst; reflexivity
           end).
    destruct c as [t i]. unfold CheckAppNamingAvailabilityByID, ret. simpl.
    now rewrite app_nil_r.
  - apply Hone.
Qed.

(** X14: a slot that is absent from the by-id check comes back as the
    zero-value requirement, whatever the other slot, the store and the
    engine are. *)
Theorem CheckAppNamingAvailabilityByID_absent_slot_is_zero (id : AppID)
    (other : option EnvironmentConfig) (c : Conn) :
  production_of (fst (CheckAppNamingAvailabilityByID fault id None other c))
    = zero_requirement
  /\ staging_of (fst (CheckAppNamingAvailabilityByID fault id other None c))
    = zero_requirement.
Proof.
  destruct other as [config|]; [|split; reflexivity].
  split.
  - rewrite (CheckAppNamingAvailabilityByID_result fault) by (right; eauto).
    destruct (fault _ _); [reflexivity|].
    destruct (source_row _ _); reflexivity.
  - rewrite (CheckAppNamingAvailabilityByID_result fault) by (left; eauto).
    destruct (fault _ _); [reflexivity|].
    destruct (source_row _ _); reflexivity.
Qed.

(** X7: the by-id check does reject against another app: when some app
    other than the one checked carries the same name and holds the target
    in a slot, the check for that target in that slot returns no error and
    reports name-available = false. *)
Theorem CheckAppNamingAvailabilityByID_rejects_against_other (id : AppID)
    (name : AppName) (config : EnvironmentConfig)
    (other : option EnvironmentConfig) (c : Conn) :
  stored id (tables c) = true ->
  named id name (tables c) = true ->
  (held_by_other "production_target" id name (Target config) (tables c) = true ->
   fault (tables c) (naming_by_id_query id (Some config) other) = None ->
   error_of (fst (CheckAppNamingAvailabilityByID fault id (Some config) other c))
     = None
   /\ ReqAvailable (production_of
        (fst (CheckAppNamingAvailabilityByID fault id (Some config) other c)))
      = false)
  /\ (held_by_other "staging_target" id name (Target config) (tables c) = true ->
      fault (tables c) (naming_by_id_query id other (Some config)) = None ->
      error_of (fst (CheckAppNamingAvailabilityByID fault id other (Some config) c))
        = None
      /\ ReqAvailable (staging_of
           (fst (CheckAppNamingAvailabilityByID fault id other (Some config) c)))
         = false).
Proof.
  intros Hstored Hnamed.
  destruct (source_row_of_stored _ _ Hstored) as (src & Hsrc & Hin & Hid).
  assert (Hother : forall column,
            held_by_other column id name (Target config) (tables c) = true ->
            exists_other_app_named column src (VText (Target config)) (tables c)
            = true).
  { intros column Hheld. unfold held_by_other in Hheld.
    apply existsb_exists in Hheld as (a & Ha & Hcond).
    unfold exists_other_app_named. apply existsb_exists. exists a.
    split; [exact Ha|].
    apply sql_eq_text_value in Hid.
    unfold named in Hnamed. rewrite forallb_forall in Hnamed.
    specialize (Hnamed src Hin). rewrite Hid in Hnamed.
    assert (Hself : sql_eq (VText id) (VText id) = true) by now apply sql_eq_text.
    rewrite Hself in Hnamed. simpl in Hnamed.
    apply sql_eq_text_value in Hnamed. rewrite Hid, Hnamed. exact Hcond. }
  split; intros Hheld Hfault;
    [rewrite (CheckAppNamingAvailabilityByID_result fault) by (left; eauto)
    |rewrite (CheckAppNamingAvailabilityByID_result fault) by (right; eauto)];
    rewrite Hfault, Hsrc; simpl; rewrite (Hother _ Hheld); auto.
Qed.

(** X8: an app that is created under an id with no row yet is read back by
    [GetByID] from the row the event wrote: the mapper receives the id, the
    name, both environment configurations and the creation audit of the
    event, and [NULL] in the version control and cleanup columns. *)
Theorem GetByID_after_AppCreated (aggregates : list App) (id : AppID)
    (name : AppName) (production staging : EnvironmentConfig)
    (created : Action) (c : Conn) :
  concat (map PendingEvents aggregates)
    = [AppCreated id name production staging created] ->
  fst (Write fault dispatch aggregates c) = None ->
  stored id (tables c) = false ->
  fault (tables (snd (Write fault dispatch aggregates c)))
        (SelectAppByID (VText id)) = None ->
  fst (GetByID fault AppFrom id (snd (Write fault dispatch aggregates c)))
  = AppFrom (created_row id name production staging created).
Proof.
  intros Hevents Hnil Hfresh Hfault.
  destruct (Write_single_event fault dispatch _ _ _ _ Hevents eq_refl Hnil)
    as (_ & Htables & _).
  unfold GetByID, One. rewrite Hfault, Htables.
  apply select_app_not_stored, map_eq_nil in Hfresh.
  cbn [select mutate apps]. rewrite filter_app, Hfresh.
  rewrite filter_cons_True by (apply sql_eq_text_value; reflexivity).
  reflexivity.
Qed.

(** X9: when [Write] goes through an [AppDeleted] event, the rows left in
    [apps] are exactly the rows of the other apps, in their order, and the
    [targets] table is as before. *)
Theorem Write_AppDeleted_keeps_other_rows (aggregates : list App) (id : AppID)
    (c : Conn) :
  concat (map PendingEvents aggregates) = [AppDeleted id] ->
  fst (Write fault dispatch aggregates c) = None ->
  apps (tables (snd (Write fault dispatch aggregates c)))
    = filter (fun r => col r "id" <> VText id) (apps (tables c))
  /\ targets (tables (snd (Write fault dispatch aggregates c)))
     = targets (tables c).
Proof.
  intros Hevents Hnil.
  destruct (Write_single_event fault dispatch _ _ _ _ Hevents eq_refl Hnil)
    as (_ & -> & _).
  split; [|reflexivity]. cbn [mutate apps].
  apply list_filter_iff. intros r. now rewrite sql_eq_text_value.
Qed.

(** X10: when [Write] goes through an [AppVersionControlConfigured] event,
    each row of the event's app holds the url and the token of the event
    ([NULL] for no token) and is unchanged in every other column; the rows
    of other apps and the [targets] table are unchanged. *)
Theorem Write_AppVersionControlConfigured_updates (aggregates : list App)
    (id : AppID) (config : VersionControl) (c : Conn) :
  concat (map PendingEvents aggregates)
    = [AppVersionControlConfigured id config] ->
  fst (Write fault dispatch aggregates c) = None ->
  targets (tables (snd (Write fault dispatch aggregates c))) = targets (tables c)
  /\ Forall2
       (updated_row id [ ("version_control_url", VText (Url config));
                         ("version_control_token", text_opt (Token config)) ])
       (apps (tables c))
       (apps (tables (snd (Write fault dispatch aggregates c)))).
Proof.
  intros Hevents Hnil.
  destruct (Write_single_event fault dispatch _ _ _ _ Hevents eq_refl Hnil)
    as (_ & -> & _).
  apply (update_rows id [ ("version_control_url", VText (Url config));
                          ("version_control_token", text_opt (Token config)) ]).
  compute_done.
Qed.

(** X11: when [Write] goes through an [AppVersionControlRemoved] event,
    each row of the event's app holds [NULL] in the url and token columns
    and is unchanged in every other column; the rows of other apps and the
    [targets] table are unchanged. *)
Theorem Write_AppVersionControlRemoved_updates (aggregates : list App)
    (id : AppID) (c : Conn) :
  concat (map PendingEvents aggregates) = [AppVersionControlRemoved id] ->
  fst (Write fault dispatch aggregates c) = None ->
  targets (tables (snd (Write fault dispatch aggregates c))) = targets (tables c)
  /\ Forall2
       (updated_row id [ ("version_control_url", VNull);
                         ("version_control_token", VNull) ])
       (apps (tables c))
       (apps (tables (snd (Write fault dispatch aggregates c)))).
Proof.
  intros Hevents Hnil.
  destruct (Write_single_event fault dispatch _ _ _ _ Hevents eq_refl Hnil)
    as (_ & -> & _).
  apply (update_rows id [ ("version_control_url", VNull);
                          ("version_control_token", VNull) ]).
  compute_done.
Qed.

(** X12: when [Write] goes through an [AppCleanupRequested] event, each row
    of the event's app holds the time and the author of the request and is
    unchanged in every other column; the rows of other apps and the
    [targets] table are unchanged. *)
Theorem Write_AppCleanupRequested_updates (aggregates : list App)
    (id : AppID) (requested : Action) (c : Conn) :
  concat (map PendingEvents aggregates) = [AppCleanupRequested id requested] ->
  fst (Write fault dispatch aggregates c) = None ->
  targets (tables (snd (Write fault dispatch aggregates c))) = targets (tables c)
  /\ Forall2
       (updated_row id [ ("cleanup_requested_at", VTime (At requested));
                         ("cleanup_requested_by", VText (By requested)) ])
       (apps (tables c))
       (apps (tables (snd (Write fault dispatch aggregates c)))).
Proof.
  intros Hevents Hnil.
  destruct (Write_single_event fault dispatch _ _ _ _ Hevents eq_refl Hnil)
    as (_ & -> & _).
  apply (update_rows id [ ("cleanup_requested_at", VTime (At requested));
                          ("cleanup_requested_by", VText (By requested)) ]).
  compute_done.
Qed.

(** X13: version control and cleanup bookkeeping do not free or take a
    name: when [Write] goes through an [AppVersionControlConfigured],
    [AppVersionControlRemoved] or [AppCleanupRequested] event and the engine
    answers the creation check as before, the check returns the same
    requirements as before the write. *)
Theorem CheckAppNamingAvailability_ignores_bookkeeping (aggregates : list App)
    (e : Event) (name : AppName) (production staging : EnvironmentConfig)
    (c : Conn) :
  concat (map PendingEvents aggregates) = [e] ->
  bookkeeping e = true ->
  fst (Write fault dispatch aggregates c) = None ->
  fault (tables (snd (Write fault dispatch aggregates c)))
        (SelectNaming (VText name) (VText (Target production))
           (VText (Target staging)))
  = fault (tables c)
      (SelectNaming (VText name) (VText (Target production))
         (VText (Target staging))) ->
  fst (CheckAppNamingAvailability fault name production staging
         (snd (Write fault dispatch aggregates c)))
  = fst (CheckAppNamingAvailability fault name production staging c).
Proof.
  intros Hevents Hbook Hnil Hfault.
  rewrite !CheckAppNamingAvailability_result, Hfault.
  destruct (fault (tables c) _) as [err|]; [reflexivity|].
  destruct e; try discriminate Hbook;
    destruct (Write_single_event fault dispatch _ _ _ _ Hevents eq_refl Hnil)
      as (_ & -> & _);
    rewrite !exists_app_named_update by reflexivity;
    reflexivity.
Qed.

(** X15: once [Write] has gone through the [AppCreated] event of an app,
    [HasAppsOnTarget] answers true for the app's production target and for
    its staging target, whenever the engine answers the query. *)
Theorem HasAppsOnTarget_after_AppCreated
    (refuses : Database -> TargetID -> option error) (aggregates : list App)
    (id : AppID) (name : AppName) (production staging : EnvironmentConfig)
    (created : Action) (t : TargetID) (c : Conn) :
  concat (map PendingEvents aggregates)
    = [AppCreated id name production staging created] ->
  fst (Write fault dispatch aggregates c) = None ->
  t = Target production \/ t = Target staging ->
  refuses (tables (snd (Write fault dispatch aggregates c))) t = None ->
  HasAppsOnTarget refuses t (tables (snd (Write fault dispatch aggregates c)))
  = (true, None).
Proof.
  intros Hevents Hnil Ht Hanswer.
  destruct (Write_single_event fault dispatch _ _ _ _ Hevents eq_refl Hnil)
    as (_ & Htables & _).
  unfold HasAppsOnTarget. rewrite Hanswer, Htables. f_equal.
  unfold exists_app_on_target. cbn [mutate apps].
  rewrite existsb_app. apply orb_true_iff. right. simpl.
  rewrite orb_false_r. apply orb_true_iff.
  destruct Ht as [-> | ->]; [left|right]; apply sql_eq_text_value; reflexivity.
Qed.

(** X16: once [Write] has gone through the [AppDeleted] event of the only
    app that held a target, [HasAppsOnTarget] answers false for that target,
    whenever the engine answers the query. *)
Theorem HasAppsOnTarget_after_AppDeleted
    (refuses : Database -> TargetID -> option error) (aggregates : list App)
    (id : AppID) (t : TargetID) (c : Conn) :
  concat (map PendingEvents aggregates) = [AppDeleted id] ->
  fst (Write fault dispatch aggregates c) = None ->
  only_holder id t (tables c) = true ->
  refuses (tables (snd (Write fault dispatch aggregates c))) t = None ->
  HasAppsOnTarget refuses t (tables (snd (Write fault dispatch aggregates c)))
  = (false, None).
Proof.
  intros Hevents Hnil Honly Hanswer.
  destruct (Write_single_event fault dispatch _ _ _ _ Hevents eq_refl Hnil)
    as (_ & Htables & _).
  unfold HasAppsOnTarget. rewrite Hanswer, Htables. f_equal.
  apply not_true_is_false. unfold exists_app_on_target.
  rewrite existsb_exists. intros (r & Hin & Hr). cbn [mutate apps] in Hin.
  apply list_elem_of_In, list_elem_of_filter in Hin as [Hne Hin].
  unfold only_holder in Honly. rewrite forallb_forall in Honly.
  specialize (Honly r (proj1 (list_elem_of_In _ _) Hin)).
  rewrite Hr in Honly. simpl in Honly. contradiction.
Qed.

End StoreCoverage.

(** ** The further statements at concrete stores *)

Lemma CheckAppNamingAvailabilityByID_unknown_app_witness :
  fst (AppsStore.CheckAppNamingAvailabilityByID healthy "app-z"
         (Some (example_config "T1")) None example_conn)
    = (zero_requirement, zero_requirement, Some ErrNoRows)
  <-> stored "app-z" (tables example_conn) = false.
Proof.
  apply (CheckAppNamingAvailabilityByID_unknown_app healthy "app-z"
           (Some (example_config "T1")) None example_conn).
  - left. eexists. reflexivity.
  - reflexivity.
Defined.

Lemma CheckAppNamingAvailabilityByID_rejects_against_other_witness :
  error_of (fst (AppsStore.CheckAppNamingAvailabilityByID healthy "app-a"
    (Some (example_config "T2")) None example_two_apps)) = None
  /\ ReqAvailable (production_of (fst (AppsStore.CheckAppNamingAvailabilityByID
       healthy "app-a" (Some (example_config "T2")) None example_two_apps)))
     = false.
Proof.
  apply (CheckAppNamingAvailabilityByID_rejects_against_other healthy "app-a"
           "n1" (example_config "T2") None example_two_apps);
    reflexivity.
Defined.

Lemma GetByID_after_AppCreated_witness :
  fst (AppsStore.GetByID healthy example_AppFrom "app-a" example_conn)
  = example_AppFrom (created_row "app-a" "n1" (example_config "T1")
                       (example_config "T2") example_action).
Proof.
  apply (GetByID_after_AppCreated healthy delivered example_AppFrom
           [ example_app "app-a" "n1" "T1" "T2" ] "app-a" "n1"
           (example_config "T1") (example_config "T2") example_action
           example_empty); reflexivity.
Defined.

Lemma Write_AppDeleted_keeps_other_rows_witness :
  apps (tables (snd (AppsStore.Write healthy delivered
    [ {| AppIdentity := "app-a"; PendingEvents := [ AppDeleted "app-a" ] |} ]
    example_two_apps)))
  = filter (fun r => col r "id" <> VText "app-a") (apps (tables example_two_apps))
  /\ targets (tables (snd (AppsStore.Write healthy delivered
       [ {| AppIdentity := "app-a"; PendingEvents := [ AppDeleted "app-a" ] |} ]
       example_two_apps)))
     = targets (tables example_two_apps).
Proof.
  apply (Write_AppDeleted_keeps_other_rows healthy delivered
           [ {| AppIdentity := "app-a";
                PendingEvents := [ AppDeleted "app-a" ] |} ]
           "app-a" example_two_apps); reflexivity.
Defined.

Lemma Write_AppVersionControlConfigured_updates_witness :
  Forall2
    (updated_row "app-a"
       [ ("version_control_url", VText "https://example.com/repo.git");
         ("version_control_token", VNull) ])
    (apps (tables example_two_apps))
    (apps (tables (snd (AppsStore.Write healthy delivered
       [ {| AppIdentity := "app-a";
            PendingEvents :=
              [ AppVersionControlConfigured "app-a"
                  {| Url := "https://example.com/repo.git"; Token := None |} ] |} ]
       example_two_apps)))).
Proof.
  apply (Write_AppVersionControlConfigured_updates healthy delivered
           [ {| AppIdentity := "app-a";
                PendingEvents :=
                  [ AppVersionControlConfigured "app-a"
                      {| Url := "https://example.com/repo.git";
                         Token := None |} ] |} ]
           "app-a" {| Url := "https://example.com/repo.git"; Token := None |}
           example_two_apps); reflexivity.
Defined.

Lemma Write_AppVersionControlRemoved_updates_witness :
  Forall2
    (updated_row "app-a"
       [ ("version_control_url", VNull); ("version_control_token", VNull) ])
    (apps (tables example_two_apps))
    (apps (tables (snd (AppsStore.Write healthy delivered
       [ {| AppIdentity := "app-a";
            PendingEvents := [ AppVersionControlRemoved "app-a" ] |} ]
       example_two_apps)))).
Proof.
  apply (Write_AppVersionControlRemoved_updates healthy delivered
           [ {| AppIdentity := "app-a";
                PendingEvents := [ AppVersionControlRemoved "app-a" ] |} ]
           "app-a" example_two_apps); reflexivity.
Defined.

Lemma Write_AppCleanupRequested_updates_witness :
  Forall2
    (updated_row "app-b"
       [ ("cleanup_requested_at", VTime 9);
         ("cleanup_requested_by", VText "user-1") ])
    (apps (tables example_two_apps))
    (apps (tables (snd (AppsStore.Write healthy delivered
       [ {| AppIdentity := "app-b";
            PendingEvents :=
              [ AppCleanupRequested "app-b" {| At := 9; By := "user-1" |} ] |} ]
       example_two_apps)))).
Proof.
  apply (Write_AppCleanupRequested_updates healthy delivered
           [ {| AppIdentity := "app-b";
                PendingEvents :=
                  [ AppCleanupRequested "app-b"
                      {| At := 9; By := "user-1" |} ] |} ]
           "app-b" {| At := 9; By := "user-1" |} example_two_apps);
    reflexivity.
Defined.

Lemma CheckAppNamingAvailability_ignores_bookkeeping_witness :
  fst (AppsStore.CheckAppNamingAvailability healthy "n1"
         (example_config "T1") (example_config "T3")
         (snd (AppsStore.Write healthy delivered
            [ {| AppIdentity := "app-a";
                 PendingEvents :=
                   [ AppCleanupRequested "app-a"
                       {| At := 9; By := "user-1" |} ] |} ]
            example_conn)))
  = fst (AppsStore.CheckAppNamingAvailability healthy "n1"
           (example_config "T1") (example_config "T3") example_conn).
Proof.
  apply (CheckAppNamingAvailability_ignores_bookkeeping healthy delivered
           [ {| AppIdentity := "app-a";
                PendingEvents :=
                  [ AppCleanupRequested "app-a"
                      {| At := 9; By := "user-1" |} ] |} ]
           (AppCleanupRequested "app-a" {| At := 9; By := "user-1" |})
           "n1" (example_config "T1") (example_config "T3") example_conn);
    reflexivity.
Defined.

Lemma HasAppsOnTarget_after_AppCreated_witness :
  HasAppsOnTarget answers "T2" (tables example_conn) = (true, None).
Proof.
  apply (HasAppsOnTarget_after_AppCreated healthy delivered answers
           [ example_app "app-a" "n1" "T1" "T2" ] "app-a" "n1"
           (example_config "T1") (example_config "T2") example_action "T2"
           example_empty).
  - reflexivity.
  - reflexivity.
  - right. reflexivity.
  - reflexivity.
Defined.

Lemma HasAppsOnTarget_after_AppDeleted_witness :
  HasAppsOnTarget answers "T1" (tables example_conn) = (true, None)
  /\ HasAppsOnTarget answers "T1"
       (tables (snd (AppsStore.Write healthy delivered
          [ {| AppIdentity := "app-a";
               PendingEvents := [ AppDeleted "app-a" ] |} ]
          example_conn)))
     = (false, None).
Proof.
  split; [reflexivity|].
  apply (HasAppsOnTarget_after_AppDeleted healthy delivered answers
           [ {| AppIdentity := "app-a";
                PendingEvents := [ AppDeleted "app-a" ] |} ]
           "app-a" "T1" example_conn); reflexivity.
Defined.
